(** * twonms.config: layered application configuration

    A shallow embedding of [twonms/config/config.py] and a verification of
    its specification.  The module builds one configuration tree out of
    four layers (required defaults, environment variables, a YAML file,
    command-line overrides) and hands them to [OmegaConf.merge].

    Layout of the development:
    - [Python]: the few builtins the module relies on ([str.upper],
      truthiness, [os.path.join]);
    - the outside world ([World]) and the computations [Py] that read
      it, change it and raise;
    - [OmegaConf]: configuration trees and the merge of the library, on
      plain data (scalars, lists, mappings); its parsers are taken as
      parameters;
    - [Config]: the class itself, property by property;
    - the vocabulary of the specification and a few sample inputs;
    - facts about the merge and about the properties;
    - the specification of [create], claim by claim, the further
      behaviour of the class (exceptions, keys, footprint, resolution
      of names), and their instances on the sample inputs. *)

From Stdlib Require Import Ascii String.
From stdpp Require Import gmap strings list fin_maps.

Set Warnings "-register-all".
Set Default Proof Using "Type".

Open Scope string_scope.

(** ** Python builtins *)

Module Python.

(** Exceptions the module can meet.  [LibraryError] carries whatever
    a parser of the YAML / OmegaConf libraries raised. *)
Inductive Exception :=
  | AttributeError
  | TypeError
  | KeyError
  | FileNotFoundError
  | LibraryError (msg : string).

#[global] Instance Exception_eq_dec : EqDecision Exception.
Proof. solve_decision. Defined.

(** [bool(s)] for a value that is [None] or a [str]. *)
Definition truthy (s : option string) : bool :=
  match s with
  | Some EmptyString => false
  | Some _ => true
  | None => false
  end.

(** [str.upper] on the ASCII range: the letters a-z are mapped to A-Z,
    every other byte is kept. *)
Definition upper_ascii (c : ascii) : ascii :=
  let n := nat_of_ascii c in
  if (97 <=? n)%nat && (n <=? 122)%nat then ascii_of_nat (n - 32) else c.

Fixpoint upper (s : string) : string :=
  match s with
  | EmptyString => EmptyString
  | String c s' => String (upper_ascii c) (upper s')
  end.

Definition startswith (pre s : string) : bool := String.prefix pre s.

Fixpoint endswith_sep (s : string) : bool :=
  match s with
  | EmptyString => false
  | String c EmptyString => bool_decide (c = "/"%char)
  | String _ s' => endswith_sep s'
  end.

(** [posixpath.join(a, b)] for two components. *)
Definition os_path_join (a b : string) : string :=
  if startswith "/" b then b
  else if bool_decide (a = EmptyString) || endswith_sep a then a ++ b
  else a ++ "/" ++ b.

End Python.
Import Python.

(** ** The outside world *)

(** Everything [create] reads that is not one of its arguments.
    [dotenv] holds the bindings of the local [.env] file as
    [python-dotenv] parsed them (empty when there is no such file);
    [argv] is [sys.argv[1:]]. *)
Record World := mkWorld {
  fs_isdir : string → bool;
  fs_read : string → option string;
  environ : gmap string string;
  dotenv : gmap string string;
  argv : list string
}.

(** [os.path.isdir] and [os.path.isfile]; both are [False] on the
    empty path. *)
Definition os_path_isdir (w : World) (p : string) : bool :=
  bool_decide (p ≠ EmptyString) && fs_isdir w p.
Definition os_path_isfile (w : World) (p : string) : bool :=
  bool_decide (p ≠ EmptyString) && bool_decide (is_Some (fs_read w p)).

Definition set_environ (w : World) (e : gmap string string) : World :=
  {| fs_isdir := fs_isdir w; fs_read := fs_read w; environ := e;
     dotenv := dotenv w; argv := argv w |}.


(** ** Computations that read the world, may change it, and may raise *)

Definition res (A : Type) : Type := Exception + A.
Definition Py (A : Type) : Type := World → res A * World.

Definition lift {A} (r : res A) : Py A := λ w, (r, w).
Definition reads {A} (f : World → res A) : Py A := λ w, (f w, w).
Definition gets {A} (f : World → A) : Py A := λ w, (inr (f w), w).
Definition modify (f : World → World) : Py unit := λ w, (inr tt, f w).

Definition bind {A B} (m : Py A) (k : A → Py B) : Py B :=
  λ w, match m w with
       | (inr a, w') => k a w'
       | (inl e, w') => (inl e, w')
       end.

Declare Scope py_scope.
Delimit Scope py_scope with py.
Notation "x <- m ;; k" := (bind m (λ x, k))
  (at level 100, m at next level, right associativity) : py_scope.
Notation "m ;;; k" := (bind m (λ _, k))
  (at level 100, right associativity) : py_scope.

Definition result {A} (m : Py A) (w : World) : res A := fst (m w).
Definition final {A} (m : Py A) (w : World) : World := snd (m w).

(** [load_dotenv()]: every binding of the [.env] file whose key is not
    yet in the process environment is added to it ([override=False]). *)
Definition load_dotenv : Py unit :=
  modify (λ w, set_environ w (environ w ∪ dotenv w)).

(** ** OmegaConf *)

Module OmegaConf.

Inductive Scalar :=
  | SNone
  | SBool (b : bool)
  | SInt (z : Z)
  | SStr (s : string).

(** A node of a configuration tree: a value node, a [ListConfig] or a
    [DictConfig].  Floats, interpolations and the mandatory-missing
    marker of the library are not part of the model. *)
Inductive Node :=
  | VScalar (v : Scalar)
  | VList (l : list Node)
  | VDict (m : gmap string Node).

(** What [OmegaConf.create] and [OmegaConf.load] return. *)
Inductive Container :=
  | DictConfig (m : gmap string Node)
  | ListConfig (l : list Node).

(** [OmegaConf.create()] *)
Definition create_empty : Container := DictConfig ∅.

Definition is_dict (n : Node) : bool :=
  match n with VDict _ => true | _ => false end.

(** One iteration of the loop of [BaseContainer._map_merge]: the entry
    [key ↦ src_node] of the source is merged into [dest]. *)
Definition merge_entry (rec : Node → Node → res Node)
    (key : string) (src_node : Node)
    (dest : res (gmap string Node)) : res (gmap string Node) :=
  match dest with
  | inl e => inl e
  | inr d =>
      match d !! key with
      | Some dest_node =>
          match rec dest_node src_node with
          | inl e => inl e
          | inr v => inr (<[key:=v]> d)
          end
      | None => inr (<[key:=src_node]> d)
      end
  end.

(** The value a key present on both sides gets: two [DictConfig]s are
    merged recursively, two [ListConfig]s are replaced by the source
    (the default list merge mode), a [DictConfig] against a
    [ListConfig] raises [TypeError], and in every other case the
    source node replaces the destination node. *)
Fixpoint node_merge (dest_node src_node : Node) {struct src_node} : res Node :=
  match dest_node, src_node with
  | VDict dd, VDict sd =>
      match map_fold (merge_entry node_merge) (inr dd) sd with
      | inl e => inl e
      | inr m => inr (VDict m)
      end
  | VDict _, VList _ | VList _, VDict _ => inl TypeError
  | _, _ => inr src_node
  end.

(** [BaseContainer._map_merge(dest, src)] *)
Definition map_merge (dest src : gmap string Node) : res (gmap string Node) :=
  map_fold (merge_entry node_merge) (inr dest) src.

(** [dest._merge_with(src)] on two containers. *)
Definition merge_with (dest src : Container) : res Container :=
  match dest, src with
  | DictConfig d, DictConfig s =>
      match map_merge d s with
      | inl e => inl e
      | inr m => inr (DictConfig m)
      end
  | ListConfig _, ListConfig l => inr (ListConfig l)
  | _, _ => inl TypeError
  end.

(** [OmegaConf.merge(target, *others)]: the others are merged into a
    copy of the first configuration, from left to right. *)
Definition merge (target : Container) (others : list Container) : res Container :=
  foldl (λ acc other,
           match acc with
           | inl e => inl e
           | inr t => merge_with t other
           end) (inr target) others.

(** The parsers of the library, which the module calls and does not
    implement: [OmegaConf.create] on a YAML string, [OmegaConf.load]
    on the text of a file, and [OmegaConf.from_cli] on the argument
    list. *)
Class Parsers := {
  create_str : string → res Container;
  load_str : string → res Container;
  from_dotlist : list string → res (gmap string Node)
}.

(** The argument of [OmegaConf.create]: a mapping or a YAML string. *)
Inductive Source :=
  | FromDict (m : gmap string Node)
  | FromStr (s : string).

Definition create `{Parsers} (obj : Source) : res Container :=
  match obj with
  | FromDict m => inr (DictConfig m)
  | FromStr s => create_str s
  end.

(** [OmegaConf.load(file_)] *)
Definition load `{Parsers} (file_ : string) (w : World) : res Container :=
  match fs_read w file_ with
  | Some text => load_str text
  | None => inl FileNotFoundError
  end.

(** [OmegaConf.from_cli()] *)
Definition from_cli `{Parsers} (w : World) : res (gmap string Node) :=
  from_dotlist (argv w).

End OmegaConf.
Import OmegaConf.

(** ** The class [Config] *)

Module Config.

(** Does a mapping of pre-defined environments to their corresponding
    yaml configuration files. *)
Definition ENVIRONMENT_MAPPING : gmap string string :=
  <["DEV" := "development.yaml"]>
  (<["PROD" := "production.yaml"]>
  (<["DEBUG" := "debug.yaml"]>
  (<["TEST" := "test.yaml"]> ∅))).

(** The environment variables that are allowed by default. *)
Definition DEFAULT_ALLOWED_ENVVARS : list string := ["environment"; "debug"].

(** The attributes set by [__init__]. *)
Record t := mk {
  _path : string;
  _conf : option string;
  _env : option string;
  _required_config : Source;
  allowed_envvars : list string
}.

(** [Config(path, conf, env, required_config, allowed_envvars)];
    [conf], [env] and [allowed_envvars] may be [None]. *)
Definition __init__ (path : string) (conf env : option string)
    (required_config : Source) (allowed : option (list string)) : t :=
  {| _path := path;
     _conf := conf;
     _env := env;
     _required_config := required_config;
     allowed_envvars := default [] allowed |}.

Section Properties.
Context `{Parsers}.

(** Returns the path if the folder exists, otherwise returns None. *)
Definition path (self : t) (w : World) : option string :=
  if os_path_isdir w (_path self) then Some (_path self) else None.

(** Returns either a predefined environment (DEV, PROD, DEBUG, TEST)
    or None; [None.upper()] raises [AttributeError]. *)
Definition env (self : t) : res (option string) :=
  match _env self with
  | None => inl AttributeError
  | Some s =>
      let env := upper s in
      if bool_decide (env ∈ dom ENVIRONMENT_MAPPING)
      then inr (Some env)
      else inr None
  end.

(** The yaml config filename: the explicit one, else the one of the
    environment, else None. *)
Definition conf (self : t) : res (option string) :=
  if truthy (_conf self) then inr (_conf self)
  else
    match env self with
    | inl e => inl e
    | inr None => inr None
    | inr (Some env) =>
        if truthy (Some env) && bool_decide (env ∈ dom ENVIRONMENT_MAPPING)
        then match ENVIRONMENT_MAPPING !! env with
             | Some f => inr (Some f)
             | None => inl KeyError
             end
        else inr None
    end.

(** The required config; an exception of [OmegaConf.create] is
    caught and an empty configuration is returned instead. *)
Definition required_config (self : t) : Container :=
  match OmegaConf.create (_required_config self) with
  | inr obj => obj
  | inl e => (* logger.debug(e) *) create_empty
  end.

(** [{x: os.environ.get(x) for x in allowed_envvars if os.environ.get(x)}] *)
Definition environ_dict (environ : gmap string string) (allowed : list string)
    : gmap string string :=
  foldl (λ d x, if truthy (environ !! x)
                then match environ !! x with
                     | Some v => <[x:=v]> d
                     | None => d
                     end
                else d) ∅ allowed.

(** The environment variables config; loading the [.env] file
    changes the process environment. *)
Definition environment_config (self : t) : Py Container :=
  (load_dotenv ;;;
   gets (λ w, DictConfig ((λ v, VScalar (SStr v)) <$>
                environ_dict (environ w) (allowed_envvars self))))%py.

(** The CLI variables config. *)
Definition cli_config (self : t) (w : World) : res Container :=
  match from_cli w with
  | inl e => inl e
  | inr cli => inr (DictConfig (list_to_map (map_to_list cli)))
  end.

(** The configuration of the yaml file, when there is one.  The
    properties [path] and [conf] are read in the condition and again
    in the body. *)
Definition file_config (self : t) (w : World) : res Container :=
  if truthy (path self w) then
    match conf self with
    | inl e => inl e
    | inr c =>
        if truthy c then
          match path self w, conf self with
          | Some p, inr (Some c) =>
              let config_file := os_path_join p c in
              if os_path_isfile w config_file
              then load config_file w
              else inr create_empty
          | _, inl e => inl e
          | _, _ => inl TypeError
          end
        else inr create_empty
    end
  else inr create_empty.

(** Loads the four layers and merges them, later ones overriding
    earlier ones. *)
Definition __create (self : t) : Py Container :=
  (let required_config := required_config self in
   env_config <- environment_config self ;;
   cli_config <- reads (cli_config self) ;;
   file_config <- reads (file_config self) ;;
   lift (OmegaConf.merge required_config
           [env_config; file_config; cli_config]))%py.

End Properties.

(** [Config.create(path, conf, env, required_config, allowed_envvars)] *)
Definition create `{Parsers} (path : string) (conf env : option string)
    (required_config : Source) (allowed_envvars : option (list string))
    : Py Container :=
  let obj := __init__ path conf env required_config allowed_envvars in
  __create obj.

(** The defaults of the keyword arguments of [create]. *)
Definition default_path : string := "./conf".
Definition default_conf : option string := None.
Definition default_env : option string := Some "PROD".
Definition default_required_config : Source := FromDict ∅.
Definition default_allowed_envvars : option (list string) :=
  Some DEFAULT_ALLOWED_ENVVARS.

(** [Config.create()] *)
Definition create_default `{Parsers} : Py Container :=
  create default_path default_conf default_env
         default_required_config default_allowed_envvars.

End Config.

(** ** Vocabulary of the specification *)

(** The node a tree holds under a dotted path of keys. *)
Fixpoint select (p : list string) (n : Node) : option Node :=
  match p with
  | [] => Some n
  | k :: p' =>
      match n with
      | VDict m => match m !! k with
                   | Some n' => select p' n'
                   | None => None
                   end
      | _ => None
      end
  end.







Definition is_list (n : Node) : bool :=
  match n with VList _ => true | _ => false end.

(** A tree is [list_free] when no node of it is a [ListConfig]. *)
Definition list_free (n : Node) : Prop :=
  ∀ p x, select p n = Some x → is_list x = false.

(** A mapping on one side and a list on the other: the pair of nodes
    [_merge_with] refuses. *)
Definition conflict (x y : Node) : bool :=
  (is_dict x && is_list y) || (is_list x && is_dict y).

(** The number of mappings and leaves of a tree (a list counts as one
    leaf), the measure the merge goes down on. *)
Fixpoint node_size (n : Node) : nat :=
  match n with
  | VDict m => S (map_fold (λ _ v acc, node_size v + acc) 0 m)
  | _ => 1
  end.

(** The keys of the process environment that the environment layer
    may hold: allowed, and bound to a non-empty value. *)
Definition env_visible (allowed : list string) (kv : string * string) : Prop :=
  kv.1 ∈ allowed ∧ kv.2 ≠ EmptyString.

#[global] Instance env_visible_dec allowed kv : Decision (env_visible allowed kv).
Proof. unfold env_visible. apply _. Defined.

(** The process environment once the [.env] file has been loaded. *)
Definition loaded_environ (w : World) : gmap string string :=
  environ w ∪ dotenv w.

(** The environment layer in the words of the specification: the
    restriction of the process environment to the allowed keys whose
    values are present and non-empty. *)
Definition env_layer (allowed : list string) (w : World) : gmap string Node :=
  (λ v, VScalar (SStr v)) <$> filter (env_visible allowed) (loaded_environ w).

(** The invariant of the loop of [_map_merge], after the entries of
    [s] have been merged into [d]. *)
Definition merged_so_far (d : gmap string Node)
    (acc : res (gmap string Node)) (s : gmap string Node) : Prop :=
  match acc with
  | inr r =>
      ∀ k, match s !! k with
           | None => r !! k = d !! k
           | Some sv =>
               match d !! k with
               | None => r !! k = Some sv
               | Some dv => ∃ v, node_merge dv sv = inr v ∧ r !! k = Some v
               end
           end
  | inl e =>
      ∃ k dv sv, d !! k = Some dv ∧ s !! k = Some sv ∧ node_merge dv sv = inl e
  end.





(** ** Sample inputs *)

(** A small installation used to run the properties: a handful of YAML
    texts with their parses, a few argument lists, and worlds built
    from lists of directories, files and variables. *)
Module Sample.

Definition int (z : Z) : Node := VScalar (SInt z).
Definition str (s : string) : Node := VScalar (SStr s).

Definition documents : list (string * Container) :=
  [ (EmptyString, DictConfig ∅);
    ("debug: file", DictConfig {[ "debug" := str "file" ]});
    ("debug: required", DictConfig {[ "debug" := str "required" ]});
    ("{a: {b: 1, c: 2}}",
       DictConfig {[ "a" := VDict (<["b" := int 1]> {[ "c" := int 2 ]}) ]});
    ("{a: {b: 3}}", DictConfig {[ "a" := VDict {[ "b" := int 3 ]} ]});
    ("name: prod", DictConfig {[ "name" := str "prod" ]});
    ("name: dev", DictConfig {[ "name" := str "dev" ]});
    ("- x", ListConfig [str "x"]) ].

(** Every other text, such as ["{a: "], is malformed. *)
Definition yaml (text : string) : res Container :=
  match (list_to_map documents : gmap string Container) !! text with
  | Some c => inr c
  | None => inl (LibraryError "yaml")
  end.

Definition dotlists : list (list string * gmap string Node) :=
  [ ([], ∅);
    (["debug=cli"], {[ "debug" := str "cli" ]});
    (["a.b=4"], {[ "a" := VDict {[ "b" := int 4 ]} ]}) ].

(** Every other argument list, such as [["a=["]], is malformed. *)
Definition dotlist (args : list string) : res (gmap string Node) :=
  match (list_to_map dotlists : gmap (list string) (gmap string Node)) !! args with
  | Some m => inr m
  | None => inl (LibraryError "dotlist")
  end.

Definition parsers : Parsers :=
  {| create_str := yaml; load_str := yaml; from_dotlist := dotlist |}.

Definition world (dirs : list string) (files env dot : list (string * string))
    (args : list string) : World :=
  {| fs_isdir := λ p, bool_decide (p ∈ dirs);
     fs_read := λ p, (list_to_map files : gmap string string) !! p;
     environ := list_to_map env;
     dotenv := list_to_map dot;
     argv := args |}.

(** Nothing on disk, nothing in the environment, no arguments. *)
Definition bare : World := world [] [] [] [] [].

(** The key [debug] set in all four layers. *)
Definition layered : World :=
  world ["./conf"] [("./conf/production.yaml", "debug: file")]
        [("debug", "env"); ("HOME", "/root")] [] ["debug=cli"].

(** The same without the command line, and without the file too. *)
Definition no_cli : World :=
  world ["./conf"] [("./conf/production.yaml", "debug: file")]
        [("debug", "env")] [] [].
Definition no_file : World := world [] [] [("debug", "env")] [] [].




(** Files for the conventional names. *)
Definition conventional : World :=
  world ["./conf"]
        [("./conf/production.yaml", "name: prod");
         ("./conf/development.yaml", "name: dev")] [] [] [].

(** An allowed variable that the process sets to the empty string and
    the [.env] file sets to a value. *)
Definition shadowed : World :=
  world [] [] [("debug", EmptyString); ("mode", "process")]
        [("debug", "on"); ("mode", "dotenv"); ("environment", "staging")] [].

(** A configuration file outside of the configuration directory. *)
Definition absolute : World :=
  world ["./conf"] [("/etc/app.yaml", "name: prod")] [] [] [].


(** A [.env] file next to a command line that does not parse. *)
Definition broken_cli_dotenv : World :=
  world [] [] [("debug", "env")] [("environment", "staging")] ["a=["].

End Sample.

(** ** Facts about the merge of the library *)

Section MergeFacts.
Implicit Types (d s r : gmap string Node) (k : string).

Lemma node_merge_dict d s :
  node_merge (VDict d) (VDict s) =
    match map_merge d s with inl e => inl e | inr m => inr (VDict m) end.
Proof. reflexivity. Qed.



Lemma map_merge_empty_r d : map_merge d ∅ = inr d.
Proof. unfold map_merge. by rewrite map_fold_empty. Qed.

Lemma map_merge_invariant d s : merged_so_far d (map_merge d s) s.
Proof.
  unfold map_merge.
  apply (map_fold_weak_ind (λ acc s, merged_so_far d acc s)).
  - intros k. by rewrite lookup_empty.
  - intros i x m acc Hi IH. destruct acc as [e|r]; simpl in *.
    + destruct IH as (k & dv & sv & Hd & Hs & He).
      exists k, dv, sv. split_and!; try done.
      rewrite lookup_insert_ne; [done|]. intros ->. congruence.
    + assert (Hri : r !! i = d !! i).
      { specialize (IH i). by rewrite Hi in IH. }
      rewrite Hri. destruct (d !! i) as [dv|] eqn:Hdi.
      * destruct (node_merge dv x) as [e|v] eqn:Hm; simpl.
        -- exists i, dv, x. by rewrite lookup_insert_eq.
        -- intros k. destruct (decide (i = k)) as [->|Hne].
           ++ rewrite !lookup_insert_eq, Hdi. eauto.
           ++ rewrite !lookup_insert_ne by done. apply IH.
      * simpl. intros k. destruct (decide (i = k)) as [->|Hne].
        -- by rewrite !lookup_insert_eq, Hdi.
        -- rewrite !lookup_insert_ne by done. apply IH.
Qed.

Lemma map_merge_lookup_None d s r k :
  map_merge d s = inr r → s !! k = None → r !! k = d !! k.
Proof.
  intros Hm Hs. pose proof (map_merge_invariant d s) as Hinv.
  rewrite Hm in Hinv. specialize (Hinv k). by rewrite Hs in Hinv.
Qed.

Lemma map_merge_lookup_new d s r k sv :
  map_merge d s = inr r → s !! k = Some sv → d !! k = None → r !! k = Some sv.
Proof.
  intros Hm Hs Hd. pose proof (map_merge_invariant d s) as Hinv.
  rewrite Hm in Hinv. specialize (Hinv k). by rewrite Hs, Hd in Hinv.
Qed.

Lemma map_merge_lookup_both d s r k dv sv :
  map_merge d s = inr r → s !! k = Some sv → d !! k = Some dv →
  ∃ v, node_merge dv sv = inr v ∧ r !! k = Some v.
Proof.
  intros Hm Hs Hd. pose proof (map_merge_invariant d s) as Hinv.
  rewrite Hm in Hinv. specialize (Hinv k). by rewrite Hs, Hd in Hinv.
Qed.

Lemma map_merge_error d s e :
  map_merge d s = inl e →
  ∃ k dv sv, d !! k = Some dv ∧ s !! k = Some sv ∧ node_merge dv sv = inl e.
Proof.
  intros Hm. pose proof (map_merge_invariant d s) as Hinv.
  by rewrite Hm in Hinv.
Qed.



End MergeFacts.

Section MergeLayers.
Implicit Types (d s r R E F C : gmap string Node) (k : string).






Lemma node_size_lookup (m : gmap string Node) k v :
  m !! k = Some v → node_size v < node_size (VDict m).
Proof.
  intros Hk. simpl.
  rewrite (map_fold_delete_L _ _ k v m); [lia | | done].
  intros. lia.
Qed.

(** The merge raises only where a mapping meets a list. *)
Lemma node_merge_raises n : ∀ b a e,
  node_size b < n → node_merge a b = inl e →
  e = TypeError ∧
  ∃ p x y, select p a = Some x ∧ select p b = Some y ∧ conflict x y = true.
Proof.
  induction n as [|n IH]; intros b a e Hn Hm; [lia|].
  destruct a as [| |d], b as [| |s]; simpl in Hm; try discriminate.
  - injection Hm as <-. split; [done|]. by exists [], (VList l), (VDict s).
  - injection Hm as <-. split; [done|]. by exists [], (VDict d), (VList l).
  - fold (map_merge d s) in Hm.
    destruct (map_merge d s) as [e'|] eqn:Hds; [|done]. injection Hm as ->.
    apply map_merge_error in Hds as (k & dv & sv & Hd & Hs & He).
    pose proof (node_size_lookup _ _ _ Hs) as Hlt.
    destruct (IH sv dv e) as (-> & p & x & y & Hx & Hy & Hc); [lia|done|].
    split; [done|]. exists (k :: p), x, y. simpl. by rewrite Hd, Hs.
Qed.

Lemma list_free_lookup (m : gmap string Node) k v :
  list_free (VDict m) → m !! k = Some v → list_free v.
Proof.
  intros Hm Hk p x Hp. apply (Hm (k :: p)). simpl. by rewrite Hk.
Qed.

(** Two mappings with no list in them always merge, into a mapping
    with no list in it. *)
Lemma map_merge_list_free d s :
  list_free (VDict d) → list_free (VDict s) →
  ∃ r, map_merge d s = inr r ∧ list_free (VDict r).
Proof.
  intros Hd Hs. destruct (map_merge d s) as [e|r] eqn:Hm.
  - assert (Hn : node_merge (VDict d) (VDict s) = inl e)
      by by rewrite node_merge_dict, Hm.
    apply (node_merge_raises (S (node_size (VDict s)))) in Hn
      as (_ & p & x & y & Hx & Hy & Hc); [|lia].
    unfold conflict in Hc. rewrite (Hd p x Hx), (Hs p y Hy) in Hc.
    by destruct (is_dict x), (is_dict y).
  - exists r. split; [done|]. intros p. revert d s r Hd Hs Hm.
    induction p as [|k p IH]; intros d s r Hd Hs Hm x Hp; simpl in Hp.
    + by injection Hp as <-.
    + destruct (r !! k) as [v|] eqn:Hr; [|done].
      destruct (s !! k) as [sv|] eqn:Hsk.
      * destruct (d !! k) as [dv|] eqn:Hdk.
        -- destruct (map_merge_lookup_both _ _ _ _ _ _ Hm Hsk Hdk)
             as (v' & Hv' & Hr').
           rewrite Hr in Hr'. injection Hr' as <-.
           destruct dv as [| |dd], sv as [| |sd]; simpl in Hv';
             try (injection Hv' as <-;
                  by apply (list_free_lookup _ _ _ Hs Hsk p)).
           ++ discriminate.
           ++ discriminate.
           ++ fold (map_merge dd sd) in Hv'.
              destruct (map_merge dd sd) as [|r'] eqn:Hm'; [done|].
              injection Hv' as <-.
              eapply (IH dd sd r'); eauto using list_free_lookup.
        -- rewrite (map_merge_lookup_new _ _ _ _ _ Hm Hsk Hdk) in Hr.
           injection Hr as <-. by apply (list_free_lookup _ _ _ Hs Hsk p).
      * rewrite (map_merge_lookup_None _ _ _ _ Hm Hsk) in Hr.
        by apply (list_free_lookup _ _ _ Hd Hr p).
Qed.

(** The merge of four mappings is three merges of two. *)
Lemma merge_four R E F C r :
  OmegaConf.merge (DictConfig R) [DictConfig E; DictConfig F; DictConfig C]
    = inr (DictConfig r) ↔
  ∃ x1 x2, map_merge R E = inr x1 ∧ map_merge x1 F = inr x2 ∧
           map_merge x2 C = inr r.
Proof.
  unfold OmegaConf.merge. simpl. split.
  - destruct (map_merge R E) as [|x1] eqn:H1; [done|]. simpl.
    destruct (map_merge x1 F) as [|x2] eqn:H2; [done|]. simpl.
    destruct (map_merge x2 C) as [|r'] eqn:H3; [done|].
    intros [= ->]. eauto.
  - intros (x1 & x2 & -> & H2 & H3). simpl. rewrite H2. simpl. by rewrite H3.
Qed.

Lemma merge_four_list_free R E F C :
  list_free (VDict R) → list_free (VDict E) →
  list_free (VDict F) → list_free (VDict C) →
  ∃ r, OmegaConf.merge (DictConfig R)
         [DictConfig E; DictConfig F; DictConfig C] = inr (DictConfig r) ∧
       list_free (VDict r).
Proof.
  intros HR HE HF HC.
  destruct (map_merge_list_free R E HR HE) as (x1 & H1 & Hx1).
  destruct (map_merge_list_free x1 F Hx1 HF) as (x2 & H2 & Hx2).
  destruct (map_merge_list_free x2 C Hx2 HC) as (r & H3 & Hr).
  exists r. split; [|done]. apply merge_four. eauto.
Qed.

(** A merge that returns got mappings only, since the environment
    layer is one. *)
Lemma merge_four_inr (cR cF res0 : Container) E C :
  OmegaConf.merge cR [DictConfig E; cF; DictConfig C] = inr res0 →
  ∃ R F r, cR = DictConfig R ∧ cF = DictConfig F ∧ res0 = DictConfig r.
Proof.
  unfold OmegaConf.merge. simpl. destruct cR as [R|l]; [|done]. simpl.
  destruct (map_merge R E) as [|x1]; [done|]. simpl.
  destruct cF as [F|l]; [|done]. simpl.
  destruct (map_merge x1 F) as [|x2]; [done|]. simpl.
  destruct (map_merge x2 C) as [|r]; [done|].
  intros [= <-]. by exists R, F, r.
Qed.


(** An empty layer changes nothing. *)
Lemma merge_skip_empty (cR : Container) E C :
  OmegaConf.merge cR [DictConfig E; create_empty; DictConfig C] =
  OmegaConf.merge cR [DictConfig E; DictConfig C].
Proof.
  unfold OmegaConf.merge, create_empty. simpl.
  destruct cR as [R|l]; [|done]. simpl.
  destruct (map_merge R E) as [|x1]; [done|]. simpl.
  by rewrite map_merge_empty_r.
Qed.



End MergeLayers.

(** ** The shape of a merge: keys, overrides, exceptions *)

Section MergeShape.
Implicit Types (d s r : gmap string Node) (k : string).




(** A merge drops no key and invents none. *)
Lemma map_merge_dom d s r :
  map_merge d s = inr r → dom r =@{gset string} dom d ∪ dom s.
Proof.
  intros Hm. apply set_eq. intros k. rewrite elem_of_union, !elem_of_dom.
  destruct (s !! k) as [sv|] eqn:Hs.
  - destruct (d !! k) as [dv|] eqn:Hd.
    + destruct (map_merge_lookup_both _ _ _ _ _ _ Hm Hs Hd) as (v & _ & ->).
      split; eauto.
    + rewrite (map_merge_lookup_new _ _ _ _ _ Hm Hs Hd). split; eauto.
  - rewrite (map_merge_lookup_None _ _ _ _ Hm Hs).
    split; [by left | by intros [?|[? ?]]].
Qed.

(** [TypeError] is the one exception of the merge. *)
Lemma map_merge_raises d s e : map_merge d s = inl e → e = TypeError.
Proof.
  intros Hm.
  assert (Hn : node_merge (VDict d) (VDict s) = inl e)
    by by rewrite node_merge_dict, Hm.
  by apply (node_merge_raises (S (node_size (VDict s)))) in Hn as [-> _]; [|lia].
Qed.

Lemma merge_with_raises (a b : Container) e :
  merge_with a b = inl e → e = TypeError.
Proof.
  destruct a as [d|l], b as [s|l']; simpl; try by intros [= <-].
  destruct (map_merge d s) as [e'|] eqn:Hm; [|done].
  intros [= <-]. by eapply map_merge_raises.
Qed.

Lemma merge_snoc (target : Container) others other :
  OmegaConf.merge target (others ++ [other]) =
    match OmegaConf.merge target others with
    | inl e => inl e
    | inr t => merge_with t other
    end.
Proof. unfold OmegaConf.merge. by rewrite foldl_snoc. Qed.

Lemma merge_raises (target : Container) others e :
  OmegaConf.merge target others = inl e → e = TypeError.
Proof.
  induction others as [|other others IH] using rev_ind; [done|].
  rewrite merge_snoc.
  destruct (OmegaConf.merge target others) as [e'|t].
  - intros [= <-]. by apply IH.
  - apply merge_with_raises.
Qed.

(** A list among the layers of [__create], where the environment
    layer is a mapping, makes the merge raise. *)
Lemma merge_list_layer (cR cF : Container) E C :
  (∃ l, cR = ListConfig l) ∨ (∃ l, cF = ListConfig l) →
  OmegaConf.merge cR [DictConfig E; cF; DictConfig C] = inl TypeError.
Proof.
  intros Hl.
  destruct (OmegaConf.merge cR [DictConfig E; cF; DictConfig C])
    as [e|res0] eqn:Hm.
  - by rewrite (merge_raises _ _ _ Hm).
  - destruct (merge_four_inr _ _ _ _ _ Hm) as (R & F & r & -> & -> & _).
    by destruct Hl as [[l ?]|[l ?]].
Qed.

End MergeShape.

(** ** Facts about the properties of the class *)

Section ConfigFacts.
Context `{Parsers}.
Import Config.
Implicit Types (self : Config.t) (w : World) (k : string).

Lemma truthy_Some (v : string) : truthy (Some v) = true ↔ v ≠ EmptyString.
Proof. destruct v; simpl; split; congruence. Qed.

Lemma environ_fold_lookup (env : gmap string string) allowed :
  ∀ (acc : gmap string string) k,
  foldl (λ d x, if truthy (env !! x)
                then match env !! x with
                     | Some v => <[x:=v]> d
                     | None => d
                     end
                else d) acc allowed !! k =
  if decide (k ∈ allowed ∧ truthy (env !! k) = true)
  then env !! k else acc !! k.
Proof.
  induction allowed as [|x l IH]; intros acc k; simpl.
  - done.
  - rewrite IH. destruct (decide (k ∈ l ∧ truthy (env !! k) = true)) as [[Hl Ht]|Hn].
    + rewrite decide_True; [done|]. split; [by right | done].
    + destruct (decide (k = x)) as [->|Hne].
      * destruct (truthy (env !! x)) eqn:Ht.
        -- rewrite decide_True by (split; [by left | done]).
           destruct (env !! x) as [v|] eqn:Hx; [|done].
           by rewrite lookup_insert_eq.
        -- rewrite decide_False; [done|]. intros [_ ?]. congruence.
      * rewrite decide_False.
        2:{ intros [Hin Ht]. apply Hn. split; [|done].
            apply elem_of_cons in Hin as [?|?]; [done|done]. }
        destruct (truthy (env !! x)); [|done].
        destruct (env !! x) as [v|]; [|done].
        by rewrite lookup_insert_ne.
Qed.

(** The dictionary comprehension of [environment_config] is the
    restriction of the environment to the visible bindings. *)
Lemma environ_dict_filter (env : gmap string string) allowed :
  environ_dict env allowed = filter (env_visible allowed) env.
Proof.
  apply map_eq. intros k. unfold environ_dict.
  rewrite environ_fold_lookup, lookup_empty.
  destruct (env !! k) as [v|] eqn:Hk.
  - case_decide as Hd.
    + symmetry. apply map_lookup_filter_Some. split; [done|].
      destruct Hd as [Hin Ht]. split; [done|]. by apply truthy_Some.
    + symmetry. apply map_lookup_filter_None. right. intros v' Hv' [Hin Hne].
      simpl in *. apply Hd. split; [done|]. apply truthy_Some.
      rewrite Hk in Hv'. by injection Hv' as <-.
  - case_decide.
    + symmetry. apply map_lookup_filter_None. by left.
    + symmetry. apply map_lookup_filter_None. by left.
Qed.

Lemma environment_config_run self w :
  environment_config self w =
    (inr (DictConfig (env_layer (allowed_envvars self) w)),
     set_environ w (loaded_environ w)).
Proof.
  unfold environment_config, load_dotenv, bind, modify, gets, env_layer.
  simpl. by rewrite environ_dict_filter.
Qed.

(** The command-line layer is the mapping [from_cli] returns. *)
Lemma cli_config_run self w :
  cli_config self w =
    match from_dotlist (argv w) with
    | inl e => inl e
    | inr cli => inr (DictConfig cli)
    end.
Proof.
  unfold cli_config, from_cli. destruct (from_dotlist (argv w)); [done|].
  by rewrite list_to_map_to_list.
Qed.

(** Neither the file layer nor the command-line layer looks at the
    process environment. *)
Lemma file_config_environ self w e :
  file_config self (set_environ w e) = file_config self w.
Proof. reflexivity. Qed.

Lemma cli_config_environ self w e :
  cli_config self (set_environ w e) = cli_config self w.
Proof. reflexivity. Qed.

(** [__create], layer by layer. *)
Lemma create_result self w :
  result (__create self) w =
    match cli_config self w with
    | inl e => inl e
    | inr cC =>
        match file_config self w with
        | inl e => inl e
        | inr cF =>
            OmegaConf.merge (required_config self)
              [DictConfig (env_layer (allowed_envvars self) w); cF; cC]
        end
    end.
Proof.
  unfold result, __create, bind. rewrite environment_config_run.
  unfold reads, lift. rewrite cli_config_environ, file_config_environ.
  destruct (cli_config self w); [done|].
  by destruct (file_config self w).
Qed.

(** The only trace a call leaves is the loaded [.env] file. *)
Lemma create_final self w :
  final (__create self) w = set_environ w (loaded_environ w).
Proof.
  unfold final, __create, bind. rewrite environment_config_run.
  unfold reads, lift. rewrite cli_config_environ, file_config_environ.
  destruct (cli_config self w); [done|].
  by destruct (file_config self w).
Qed.

Lemma loaded_environ_idemp w :
  loaded_environ (set_environ w (loaded_environ w)) = loaded_environ w.
Proof.
  unfold loaded_environ. simpl. apply map_eq. intros k.
  rewrite !lookup_union. by destruct (environ w !! k), (dotenv w !! k).
Qed.

Lemma env_layer_lookup allowed w k :
  env_layer allowed w !! k =
    match loaded_environ w !! k with
    | Some v => if decide (k ∈ allowed ∧ v ≠ EmptyString)
                then Some (VScalar (SStr v)) else None
    | None => None
    end.
Proof.
  unfold env_layer. rewrite lookup_fmap.
  destruct (loaded_environ w !! k) as [v|] eqn:Hk.
  - case_decide as Hd.
    + erewrite (proj2 (map_lookup_filter_Some _ _ _ _)); [done|]. done.
    + rewrite (proj2 (map_lookup_filter_None _ _ _)); [done|].
      right. intros v' Hv'. rewrite Hk in Hv'. by injection Hv' as <-.
  - rewrite (proj2 (map_lookup_filter_None _ _ _)); [done|]. by left.
Qed.




Lemma env_layer_loaded allowed w :
  env_layer allowed (set_environ w (loaded_environ w)) = env_layer allowed w.
Proof. unfold env_layer. by rewrite loaded_environ_idemp. Qed.

End ConfigFacts.

Section ResolutionFacts.
Import Config.
Implicit Types (self : Config.t) (w : World).

(** The table, entry by entry. *)
Lemma ENVIRONMENT_MAPPING_lookup (e : string) :
  ENVIRONMENT_MAPPING !! e =
    if decide (e = "DEV") then Some "development.yaml"
    else if decide (e = "PROD") then Some "production.yaml"
    else if decide (e = "DEBUG") then Some "debug.yaml"
    else if decide (e = "TEST") then Some "test.yaml"
    else None.
Proof.
  unfold ENVIRONMENT_MAPPING. rewrite !lookup_insert, lookup_empty.
  repeat case_decide; congruence.
Qed.

Lemma ENVIRONMENT_MAPPING_truthy (e f : string) :
  ENVIRONMENT_MAPPING !! e = Some f → truthy (Some e) = true ∧ truthy (Some f) = true.
Proof.
  rewrite ENVIRONMENT_MAPPING_lookup.
  repeat case_decide; subst; intros [= <-]; done.
Qed.

(** With no explicit file name, [conf] is the table entry of the
    upper-cased tag. *)
Lemma conf_of_tag self tag :
  truthy (_conf self) = false → _env self = Some tag →
  conf self = inr (ENVIRONMENT_MAPPING !! upper tag).
Proof.
  intros Hc He. unfold conf, env. rewrite Hc, He. simpl.
  destruct (ENVIRONMENT_MAPPING !! upper tag) as [f|] eqn:Hm.
  - assert (Hin : upper tag ∈ dom ENVIRONMENT_MAPPING) by (apply elem_of_dom; eauto).
    rewrite !bool_decide_eq_true_2 by done.
    destruct (ENVIRONMENT_MAPPING_truthy _ _ Hm) as [Ht _]. simpl in Ht.
    by rewrite Ht, Hm.
  - rewrite bool_decide_eq_false_2; [done|].
    rewrite elem_of_dom, Hm. by intros [? ?].
Qed.

Lemma conf_explicit self :
  truthy (_conf self) = true → conf self = inr (_conf self).
Proof. intros Hc. unfold conf. by rewrite Hc. Qed.

(** A file name that [conf] returns is never empty. *)
Lemma conf_truthy self name :
  conf self = inr (Some name) → truthy (Some name) = true.
Proof.
  destruct (truthy (_conf self)) eqn:Hc.
  - rewrite conf_explicit by done. intros [= Heq]. by rewrite Heq in Hc.
  - destruct (_env self) as [tag|] eqn:He.
    + rewrite (conf_of_tag _ tag) by done. intros [= Hm].
      by destruct (ENVIRONMENT_MAPPING_truthy _ _ Hm).
    + unfold conf, env. by rewrite Hc, He.
Qed.

Lemma truthy_path self w :
  truthy (path self w) = os_path_isdir w (_path self).
Proof.
  unfold path. destruct (os_path_isdir w (_path self)) eqn:Hd; [|done].
  unfold os_path_isdir in Hd. apply andb_true_iff in Hd as [Hne _].
  apply bool_decide_eq_true in Hne. by destruct (_path self).
Qed.

Context `{Parsers}.

(** [file_config], case by case. *)
Lemma file_config_no_dir self w :
  os_path_isdir w (_path self) = false → file_config self w = inr create_empty.
Proof. intros Hd. unfold file_config. by rewrite truthy_path, Hd. Qed.


Lemma file_config_found self w name :
  os_path_isdir w (_path self) = true → conf self = inr (Some name) →
  file_config self w =
    if os_path_isfile w (os_path_join (_path self) name)
    then load (os_path_join (_path self) name) w
    else inr create_empty.
Proof.
  intros Hd Hc. unfold file_config.
  rewrite truthy_path, Hd, Hc, (conf_truthy _ _ Hc).
  unfold path. by rewrite Hd.
Qed.


Lemma os_path_join_nonempty (a b : string) : b ≠ EmptyString → os_path_join a b ≠ EmptyString.
Proof.
  intros Hb. unfold os_path_join.
  destruct (startswith "/" b); [done|].
  destruct (bool_decide (a = EmptyString) || endswith_sep a); by destruct a.
Qed.

Lemma file_config_load_raises self w name text e :
  os_path_isdir w (_path self) = true → conf self = inr (Some name) →
  fs_read w (os_path_join (_path self) name) = Some text →
  load_str text = inl e →
  file_config self w = inl e.
Proof.
  intros Hd Hc Hread Hload. rewrite (file_config_found _ _ name) by done.
  unfold os_path_isfile, load. rewrite Hread, Hload.
  rewrite bool_decide_eq_true_2.
  - by rewrite bool_decide_eq_true_2 by eauto.
  - apply os_path_join_nonempty. apply truthy_Some. by eapply conf_truthy.
Qed.

Lemma isfile_read w p text :
  os_path_isfile w p = true → fs_read w p = Some text → load p w = load_str text.
Proof. intros _ Hr. unfold load. by rewrite Hr. Qed.

End ResolutionFacts.

(** ** The specification of [create] *)

Section Layers.
Context `{Parsers}.
Implicit Types (self : Config.t) (w : World).

(** A call that returns has merged four mappings. *)
Lemma create_layers self w res0 :
  result (Config.__create self) w = inr res0 →
  ∃ R E F C r,
    Config.required_config self = DictConfig R ∧
    result (Config.environment_config self) w = inr (DictConfig E) ∧
    Config.file_config self w = inr (DictConfig F) ∧
    Config.cli_config self w = inr (DictConfig C) ∧
    res0 = DictConfig r ∧
    OmegaConf.merge (DictConfig R) [DictConfig E; DictConfig F; DictConfig C]
      = inr (DictConfig r).
Proof.
  rewrite create_result. unfold result.
  rewrite environment_config_run, cli_config_run. simpl.
  destruct (from_dotlist (argv w)) as [|C]; [done|].
  destruct (Config.file_config self w) as [|cF]; [done|].
  intros Hm. destruct (merge_four_inr _ _ _ _ _ Hm) as (R & F & r & HR & -> & ->).
  rewrite HR in Hm. by exists R, (env_layer (Config.allowed_envvars self) w), F, C, r.
Qed.

Lemma env_layer_list_free allowed w : list_free (VDict (env_layer allowed w)).
Proof.
  intros [|k p] x Hp; simpl in Hp.
  - by injection Hp as <-.
  - unfold env_layer in Hp. rewrite lookup_fmap in Hp.
    destruct (filter _ _ !! k) as [v|]; simpl in Hp; [|done].
    destruct p; simpl in Hp; [by injection Hp as <- | done].
Qed.

(** With no list in the layers and nothing raised by the parsers, a
    call returns. *)
Lemma create_returns self w R F C :
  Config.required_config self = DictConfig R →
  Config.file_config self w = inr (DictConfig F) →
  Config.cli_config self w = inr (DictConfig C) →
  list_free (VDict R) → list_free (VDict F) → list_free (VDict C) →
  ∃ r, result (Config.__create self) w = inr (DictConfig r).
Proof.
  intros HR HF HC HlR HlF HlC. rewrite create_result, HC, HF, HR.
  destruct (merge_four_list_free R (env_layer (Config.allowed_envvars self) w)
              F C) as (r & Hr & _); auto using env_layer_list_free.
  by exists r.
Qed.


End Layers.

(** ** Facts about tags, names and footprints *)

Section BehaviourFacts.
Import Config.
Implicit Types (self : Config.t) (w : World) (k : string).





(** Two objects with the same directory and the same file name have
    the same file layer. *)
Lemma file_config_same_conf `{Parsers} self1 self2 w :
  _path self1 = _path self2 → conf self1 = conf self2 →
  file_config self1 w = file_config self2 w.
Proof. intros Hp Hc. unfold file_config, path. by rewrite Hp, Hc. Qed.








Lemma startswith_nonempty (pre s : string) :
  pre ≠ EmptyString → startswith pre s = true → s ≠ EmptyString.
Proof. intros Hp Hs ->. by destruct pre. Qed.

End BehaviourFacts.

Section Specification.
Context `{Parsers}.
Variables (path : string) (conf env : option string).
Variables (required_config : Source) (allowed_envvars : option (list string)).
Variable w : World.

Notation "'self'" :=
  (Config.__init__ path conf env required_config allowed_envvars).
Notation "'create'" :=
  (Config.create path conf env required_config allowed_envvars).





(** C5. Missing directory, missing file.  When the directory does not
    exist, or the resolved file is not in it, the file layer is the
    empty mapping and nothing is raised on its account: [create] is
    the merge of the other three layers, an exception of [create] is
    one of the command line or of that merge, and [create] returns
    whenever the command line parses and neither it nor the required
    configuration holds a list. *)
Theorem missing_file_layer_is_empty :
  (os_path_isdir w path = false ∨
   ∃ name, Config.conf self = inr (Some name) ∧
           os_path_isfile w (os_path_join path name) = false) →
  Config.file_config self w = inr create_empty ∧
  result create w =
    match Config.cli_config self w with
    | inl e => inl e
    | inr cC =>
        OmegaConf.merge (Config.required_config self)
          [DictConfig (env_layer (Config.allowed_envvars self) w); cC]
    end ∧
  (∀ e, result create w = inl e →
        Config.cli_config self w = inl e ∨
        ∃ cC, Config.cli_config self w = inr cC ∧
              OmegaConf.merge (Config.required_config self)
                [DictConfig (env_layer (Config.allowed_envvars self) w); cC]
              = inl e) ∧
  (∀ R C, Config.required_config self = DictConfig R →
          Config.cli_config self w = inr (DictConfig C) →
          list_free (VDict R) → list_free (VDict C) →
          ∃ r, result create w = inr (DictConfig r)).
Proof.
  intros Hmiss.
  assert (Hf : Config.file_config self w = inr create_empty).
  { destruct Hmiss as [Hd|(name & Hc & Hf)].
    - by apply file_config_no_dir.
    - destruct (os_path_isdir w path) eqn:Hd.
      + rewrite (file_config_found _ _ name) by done. simpl. by rewrite Hf.
      + by apply file_config_no_dir. }
  assert (Hc : result create w =
    match Config.cli_config self w with
    | inl e => inl e
    | inr cC =>
        OmegaConf.merge (Config.required_config self)
          [DictConfig (env_layer (Config.allowed_envvars self) w); cC]
    end).
  { unfold Config.create. rewrite create_result, Hf.
    rewrite cli_config_run. destruct (from_dotlist (argv w)); [done|].
    apply merge_skip_empty. }
  split_and!; [done..| |].
  - intros e. rewrite Hc. destruct (Config.cli_config self w) as [e'|cC].
    + intros [= ->]. by left.
    + intros He. right. by exists cC.
  - intros R C HR HC HlR HlC.
    apply (create_returns _ _ R ∅ C); try done.
    intros [|k p] x Hp; simpl in Hp; [by injection Hp as <- | done].
Qed.

(** C6. A required configuration that does not parse.  The exception
    is caught: the required layer is the empty mapping and [create]
    behaves as if it had been given an empty required configuration.
    The other parsed layers have no such handler: an exception of the
    command-line parser or of the file loader comes out of
    [cli_config] and [file_config] as it is. *)
Theorem required_parse_failure_degrades e :
  OmegaConf.create required_config = inl e →
  Config.required_config self = create_empty ∧
  result create w
    = result (Config.create path conf env (FromDict ∅) allowed_envvars) w ∧
  (∀ e', from_dotlist (argv w) = inl e' → Config.cli_config self w = inl e') ∧
  (∀ name text e',
     os_path_isdir w path = true → Config.conf self = inr (Some name) →
     fs_read w (os_path_join path name) = Some text → load_str text = inl e' →
     Config.file_config self w = inl e').
Proof.
  intros He.
  assert (Hr : Config.required_config self = create_empty).
  { unfold Config.required_config. simpl. by rewrite He. }
  split_and!.
  - done.
  - unfold Config.create. rewrite !create_result, Hr. done.
  - intros e' Hcli. by rewrite cli_config_run, Hcli.
  - intros name text e' Hd Hc Hread Hload.
    by apply (file_config_load_raises _ _ name text).
Qed.


(** C8. Determinism.  A second call of [create], made in the world
    the first call leaves behind, returns what the first returned (or
    raises what it raised) and leaves that world as it is. *)
Theorem create_deterministic :
  result create (final create w) = result create w ∧
  final create (final create w) = final create w.
Proof.
  unfold Config.create. rewrite !create_final, !create_result.
  rewrite cli_config_environ, file_config_environ.
  rewrite env_layer_loaded, loaded_environ_idemp. done.
Qed.


End Specification.

Section Defaults.
Context `{Parsers}.
Variable w : World.

Notation "'self'" :=
  (Config.__init__ Config.default_path Config.default_conf Config.default_env
     Config.default_required_config Config.default_allowed_envvars).

(** C9. The default tag.  Called without arguments, [create] takes the
    tag PROD, which resolves to [production.yaml]; when the directory
    [./conf] exists and holds that file, its contents are the file
    layer of the call. *)
Theorem default_env_is_production :
  Config.default_env = Some "PROD" ∧
  Config.conf self = inr (Some "production.yaml") ∧
  (∀ text,
     os_path_isdir w "./conf" = true →
     fs_read w "./conf/production.yaml" = Some text →
     Config.file_config self w = load_str text ∧
     result Config.create_default w =
       match Config.cli_config self w with
       | inl e => inl e
       | inr cC =>
           match load_str text with
           | inl e => inl e
           | inr cF =>
               OmegaConf.merge create_empty
                 [DictConfig (env_layer Config.DEFAULT_ALLOWED_ENVVARS w);
                  cF; cC]
           end
       end).
Proof.
  assert (Hc : Config.conf self = inr (Some "production.yaml")).
  { rewrite (conf_of_tag _ "PROD") by done.
    by rewrite ENVIRONMENT_MAPPING_lookup. }
  split_and!; try done.
  intros text Hd Hread.
  assert (Hf : Config.file_config self w = load_str text).
  { rewrite (file_config_found _ _ "production.yaml") by done.
    change (os_path_join (Config._path self) "production.yaml")
      with "./conf/production.yaml".
    unfold os_path_isfile, load. by rewrite Hread. }
  split; [done|]. unfold Config.create_default, Config.create.
  by rewrite create_result, Hf.
Qed.

End Defaults.

(** ** Further behaviour of the class *)

Section Behaviour.
Context `{Parsers}.
Variables (path : string) (conf env : option string).
Variables (required_config : Source) (allowed_envvars : option (list string)).
Variable w : World.

Notation "'self'" :=
  (Config.__init__ path conf env required_config allowed_envvars).
Notation "'create'" :=
  (Config.create path conf env required_config allowed_envvars).


(** X2. No key is lost.  The top-level keys of a result are the keys
    of the four layers together: every key of the required
    configuration is in the result, whatever the other layers hold,
    and no key is there that no layer has. *)
Theorem create_keeps_every_key res0 :
  result create w = inr res0 →
  ∃ R E F C r,
    Config.required_config self = DictConfig R ∧
    result (Config.environment_config self) w = inr (DictConfig E) ∧
    Config.file_config self w = inr (DictConfig F) ∧
    Config.cli_config self w = inr (DictConfig C) ∧
    res0 = DictConfig r ∧
    dom r =@{gset string} dom R ∪ dom E ∪ dom F ∪ dom C.
Proof.
  intros Hc. apply create_layers in Hc
    as (R & E & F & C & r & HR & HE & HF & HC & -> & Hm).
  exists R, E, F, C, r. split_and!; try done.
  apply merge_four in Hm as (x1 & x2 & H1 & H2 & H3).
  apply map_merge_dom in H1, H2, H3. by rewrite H3, H2, H1.
Qed.


(** X4. A layer that is a list.  A required configuration that
    parses to a list is not caught by the handler of
    [required_config]: the merge raises [TypeError].  So does a file
    that holds a list.  The exception comes after those of the
    command line and of the file. *)
Theorem list_layer_raises :
  (∀ l, Config.required_config self = ListConfig l →
        result create w =
          match Config.cli_config self w with
          | inl e => inl e
          | inr _ => match Config.file_config self w with
                     | inl e => inl e
                     | inr _ => inl TypeError
                     end
          end) ∧
  (∀ l, Config.file_config self w = inr (ListConfig l) →
        result create w =
          match Config.cli_config self w with
          | inl e => inl e
          | inr _ => inl TypeError
          end).
Proof.
  split; intros l Hl; unfold Config.create; rewrite create_result, cli_config_run.
  - destruct (from_dotlist (argv w)) as [|C]; [done|].
    destruct (Config.file_config self w) as [|cF]; [done|].
    apply merge_list_layer. left. eauto.
  - destruct (from_dotlist (argv w)) as [|C]; [done|].
    rewrite Hl. apply merge_list_layer. right. eauto.
Qed.



(** X7. Process environment before [.env].  For an allowed variable,
    a value of the process environment is the one the layer holds,
    and when that value is empty the variable is left out, whatever
    the [.env] file says; the [.env] file is read for the variables
    the process environment does not have. *)
Theorem process_environment_beats_dotenv k :
  k ∈ Config.allowed_envvars self →
  ∃ E, result (Config.environment_config self) w = inr (DictConfig E) ∧
    (∀ v, environ w !! k = Some v →
          E !! k = if decide (v = EmptyString) then None
                   else Some (VScalar (SStr v))) ∧
    (environ w !! k = None →
       E !! k = match dotenv w !! k with
                | Some v => if decide (v = EmptyString) then None
                            else Some (VScalar (SStr v))
                | None => None
                end).
Proof.
  intros Hk. exists (env_layer (Config.allowed_envvars self) w).
  split; [unfold result; by rewrite environment_config_run|].
  assert (Hd : ∀ v : string,
            (if decide (k ∈ Config.allowed_envvars self ∧ v ≠ EmptyString)
             then Some (VScalar (SStr v)) else None)
            = if decide (v = EmptyString) then None
              else Some (VScalar (SStr v))).
  { intros v. destruct (decide (v = EmptyString)) as [->|Hne].
    - rewrite decide_False; [done|]. by intros [_ ?].
    - by rewrite decide_True. }
  split.
  - intros v Hv. rewrite env_layer_lookup. unfold loaded_environ.
    rewrite lookup_union, Hv. destruct (dotenv w !! k); simpl; apply Hd.
  - intros Hv. rewrite env_layer_lookup. unfold loaded_environ.
    rewrite lookup_union, Hv. destruct (dotenv w !! k); simpl; [apply Hd|done].
Qed.

(** X8. What a call leaves behind.  Whether it returns or raises,
    [create] leaves the process environment extended by the [.env]
    file: a variable that was set keeps its value, a variable that
    was not gets the value of the [.env] file, allowed or not.
    Nothing else changes. *)
Theorem create_loads_dotenv :
  (∀ k v, environ w !! k = Some v →
          environ (final create w) !! k = Some v) ∧
  (∀ k, environ w !! k = None →
        environ (final create w) !! k = dotenv w !! k) ∧
  fs_isdir (final create w) = fs_isdir w ∧
  fs_read (final create w) = fs_read w ∧
  dotenv (final create w) = dotenv w ∧
  argv (final create w) = argv w.
Proof.
  unfold Config.create. rewrite create_final. unfold loaded_environ. simpl.
  split_and!; try done.
  - intros k v Hk. by rewrite lookup_union, Hk; destruct (dotenv w !! k).
  - intros k Hk. by rewrite lookup_union, Hk; destruct (dotenv w !! k).
Qed.




(** X12. An empty file name.  [conf] given as the empty string is
    [conf] not given: the name is resolved from the tag, and [create]
    returns what it returns without [conf]. *)
Theorem empty_conf_is_absent :
  Config.conf (Config.__init__ path (Some EmptyString) env required_config
                 allowed_envvars)
  = Config.conf (Config.__init__ path None env required_config
                   allowed_envvars) ∧
  result (Config.create path (Some EmptyString) env required_config
            allowed_envvars) w
  = result (Config.create path None env required_config allowed_envvars) w.
Proof.
  assert (Hc : Config.conf (Config.__init__ path (Some EmptyString) env
                              required_config allowed_envvars)
               = Config.conf (Config.__init__ path None env required_config
                                allowed_envvars)) by done.
  split; [done|]. unfold Config.create. rewrite !create_result.
  by rewrite (file_config_same_conf
                (Config.__init__ path (Some EmptyString) env required_config
                   allowed_envvars)
                (Config.__init__ path None env required_config
                   allowed_envvars) w eq_refl Hc).
Qed.

(** X13. An absolute file name.  When [conf] starts with a slash, the
    join with the directory is [conf] itself: the file is looked for
    at that place and not in the directory.  The directory still has
    to exist: without it the file is not read. *)
Theorem absolute_conf_ignores_path name :
  conf = Some name → startswith "/" name = true →
  os_path_join path name = name ∧
  (os_path_isdir w path = true →
   Config.file_config self w =
     if os_path_isfile w name then load name w else inr create_empty) ∧
  (os_path_isdir w path = false →
   Config.file_config self w = inr create_empty).
Proof.
  intros Hc Hs.
  assert (Hj : os_path_join path name = name).
  { unfold os_path_join. by rewrite Hs. }
  assert (Ht : truthy conf = true).
  { rewrite Hc. apply truthy_Some.
    by apply (startswith_nonempty "/" name). }
  split_and!.
  - done.
  - intros Hd. rewrite (file_config_found _ _ name); [|done|].
    + simpl. by rewrite Hj.
    + rewrite conf_explicit by done. simpl. by rewrite Hc.
  - intros Hd. by apply file_config_no_dir.
Qed.



End Behaviour.

(** ** The specification at work on the sample inputs *)

Section Witnesses.
Import Sample.

(** Turns [f args = inr (DictConfig X)], for a layer [f args] that
    computes, into the value of [X]. *)
Ltac layer H v :=
  let E := fresh in
  assert (E : inr (DictConfig v) = inr (DictConfig _) :> res Container)
    by (rewrite <- H; vm_compute; reflexivity);
  injection E as <-; clear H.


(** The chain below the command line: file, environment, defaults. *)
Example precedence_falls_back :
  result (@Config.create parsers "./conf" None (Some "PROD")
            (FromStr "debug: required") (Some ["debug"])) no_cli
    = inr (DictConfig {[ "debug" := str "file" ]}) ∧
  result (@Config.create parsers "./conf" None (Some "PROD")
            (FromStr "debug: required") (Some ["debug"])) no_file
    = inr (DictConfig {[ "debug" := str "env" ]}) ∧
  result (@Config.create parsers "./conf" None (Some "PROD")
            (FromStr "debug: required") (Some ["debug"])) bare
    = inr (DictConfig {[ "debug" := str "required" ]}).
Proof. split_and!; vm_compute; reflexivity. Qed.




(** The tag is matched whatever its case. *)
Example tag_case_insensitive :
  upper "dev" = "DEV" ∧ upper "Dev" = "DEV" ∧ upper "DEV" = "DEV" ∧
  Config.conf (Config.__init__ "./conf" None (Some "Prod") (FromDict ∅) None)
    = inr (Some "production.yaml").
Proof. split_and!; reflexivity. Qed.

(** A directory that does not exist. *)
Lemma missing_file_layer_is_empty_witness :
  os_path_isdir layered "/does/not/exist" = false ∧
  Config.file_config (H:=parsers)
    (Config.__init__ "/does/not/exist" None (Some "PROD") (FromDict ∅)
       (Some ["debug"])) layered = inr create_empty ∧
  result (@Config.create parsers "/does/not/exist" None (Some "PROD")
            (FromDict ∅) (Some ["debug"])) layered
    = inr (DictConfig {[ "debug" := str "cli" ]}).
Proof.
  assert (Hd : os_path_isdir layered "/does/not/exist" = false) by reflexivity.
  destruct (@missing_file_layer_is_empty parsers "/does/not/exist" None
              (Some "PROD") (FromDict ∅) (Some ["debug"]) layered
              (or_introl Hd)) as (Hf & Hc & _).
  split_and!; [exact Hd | exact Hf | ].
  rewrite Hc. vm_compute. reflexivity.
Defined.

(** A required configuration that is not YAML. *)
Lemma required_parse_failure_degrades_witness :
  OmegaConf.create (H:=parsers) (FromStr "{a: ") = inl (LibraryError "yaml") ∧
  result (@Config.create parsers "./conf" None (Some "PROD") (FromStr "{a: ")
            (Some ["debug"])) layered
    = inr (DictConfig {[ "debug" := str "cli" ]}).
Proof.
  assert (He : OmegaConf.create (H:=parsers) (FromStr "{a: ")
               = inl (LibraryError "yaml")) by reflexivity.
  destruct (@required_parse_failure_degrades parsers "./conf" None
              (Some "PROD") (FromStr "{a: ") (Some ["debug"]) layered _ He)
    as (_ & Hc & _).
  split; [exact He|]. rewrite Hc. vm_compute. reflexivity.
Defined.


(** [./conf/production.yaml] is read by the call without arguments. *)
Lemma default_env_is_production_witness :
  (os_path_isdir conventional "./conf" = true ∧
   fs_read conventional "./conf/production.yaml" = Some "name: prod") ∧
  result (Config.create_default (H:=parsers)) conventional
    = inr (DictConfig {[ "name" := str "prod" ]}).
Proof.
  destruct (@default_env_is_production parsers conventional) as (_ & _ & Hf).
  destruct (Hf "name: prod" eq_refl eq_refl) as [_ Hc].
  split; [by split|]. rewrite Hc. vm_compute. reflexivity.
Defined.



(** *** The further behaviour on the sample inputs *)


(** The keys [a] of the required configuration and [debug] of the
    other layers are both in the result. *)
Lemma create_keeps_every_key_witness :
  ∃ r : gmap string Node,
    result (@Config.create parsers "./conf" None (Some "PROD")
              (FromStr "{a: {b: 1, c: 2}}") (Some ["debug"])) layered
      = inr (DictConfig r) ∧
    "a" ∈ dom r ∧ "debug" ∈ dom r.
Proof.
  assert (Hrun : result (@Config.create parsers "./conf" None (Some "PROD")
                           (FromStr "{a: {b: 1, c: 2}}") (Some ["debug"]))
                   layered
                 = inr (DictConfig
                     (<["a" := VDict (<["b" := int 1]> {[ "c" := int 2 ]})]>
                        {[ "debug" := str "cli" ]})))
    by (vm_compute; reflexivity).
  destruct (@create_keeps_every_key parsers _ _ _ _ _ _ _ Hrun)
    as (R & E & F & C & r & HR & HE & HF & HC & Hr & Hdom).
  layer HR ({[ "a" := VDict (<["b" := int 1]> {[ "c" := int 2 ]}) ]}
              : gmap string Node).
  layer HC ({[ "debug" := str "cli" ]} : gmap string Node).
  exists r. split; [by rewrite Hrun, Hr|].
  rewrite Hdom, !dom_singleton. split.
  - apply elem_of_union_l, elem_of_union_l, elem_of_union_l.
    by apply elem_of_singleton.
  - apply elem_of_union_r. by apply elem_of_singleton.
Defined.


(** A required configuration that is a YAML list. *)
Lemma list_layer_raises_witness :
  Config.required_config (H:=parsers)
    (Config.__init__ "./conf" None (Some "PROD") (FromStr "- x") None)
    = ListConfig [str "x"] ∧
  result (@Config.create parsers "./conf" None (Some "PROD") (FromStr "- x")
            None) bare = inl TypeError.
Proof.
  destruct (@list_layer_raises parsers "./conf" None (Some "PROD")
              (FromStr "- x") None bare) as [Hreq _].
  split; [reflexivity|]. rewrite (Hreq [str "x"] eq_refl). reflexivity.
Defined.



(** [debug] is empty in the process environment and set in the [.env]
    file: it is left out.  [mode] is set in both: the process wins.
    [environment] is set in the [.env] file only. *)
Lemma process_environment_beats_dotenv_witness :
  ∃ E : gmap string Node,
    result (Config.environment_config
              (Config.__init__ "./conf" None (Some "PROD") (FromDict ∅)
                 (Some ["debug"; "mode"; "environment"]))) shadowed
      = inr (DictConfig E) ∧
    E !! "debug" = None ∧ E !! "mode" = Some (str "process") ∧
    E !! "environment" = Some (str "staging").
Proof.
  destruct (@process_environment_beats_dotenv "./conf" None
              (Some "PROD") (FromDict ∅)
              (Some ["debug"; "mode"; "environment"]) shadowed "debug")
    as (E & HE & Hset & _); [apply list_elem_of_here|].
  destruct (@process_environment_beats_dotenv "./conf" None
              (Some "PROD") (FromDict ∅)
              (Some ["debug"; "mode"; "environment"]) shadowed "mode")
    as (E1 & HE1 & Hset1 & _); [apply list_elem_of_further, list_elem_of_here|].
  destruct (@process_environment_beats_dotenv "./conf" None
              (Some "PROD") (FromDict ∅)
              (Some ["debug"; "mode"; "environment"]) shadowed "environment")
    as (E2 & HE2 & _ & Hunset2);
    [apply list_elem_of_further, list_elem_of_further, list_elem_of_here|].
  rewrite HE in HE1, HE2. injection HE1 as <-. injection HE2 as <-.
  exists E. split_and!.
  - exact HE.
  - exact (Hset EmptyString eq_refl).
  - exact (Hset1 "process" eq_refl).
  - exact (Hunset2 eq_refl).
Defined.

(** The command line does not parse, and the [.env] file has been
    loaded all the same, with a variable that is not allowed. *)
Lemma create_loads_dotenv_witness :
  result (@Config.create parsers "./conf" None (Some "PROD") (FromDict ∅)
            (Some ["debug"])) broken_cli_dotenv
    = inl (LibraryError "dotlist") ∧
  environ broken_cli_dotenv !! "environment" = None ∧
  environ (final (@Config.create parsers "./conf" None (Some "PROD")
                    (FromDict ∅) (Some ["debug"])) broken_cli_dotenv)
    !! "environment" = Some "staging".
Proof.
  destruct (@create_loads_dotenv parsers "./conf" None (Some "PROD")
              (FromDict ∅) (Some ["debug"]) broken_cli_dotenv)
    as (_ & Hnew & _).
  assert (Hk : environ broken_cli_dotenv !! "environment" = None) by reflexivity.
  split_and!; [reflexivity | exact Hk | ].
  rewrite (Hnew "environment" Hk). reflexivity.
Defined.




(** [/etc/app.yaml] is read when [./conf] exists, and is not when the
    directory given does not. *)
Lemma absolute_conf_ignores_path_witness :
  startswith "/" "/etc/app.yaml" = true ∧
  (os_path_isdir absolute "./conf" = true ∧
   Config.file_config (H:=parsers)
     (Config.__init__ "./conf" (Some "/etc/app.yaml") (Some "PROD")
        (FromDict ∅) None) absolute
   = inr (DictConfig {[ "name" := str "prod" ]})) ∧
  (os_path_isdir absolute "/etc/conf.d" = false ∧
   Config.file_config (H:=parsers)
     (Config.__init__ "/etc/conf.d" (Some "/etc/app.yaml") (Some "PROD")
        (FromDict ∅) None) absolute
   = inr create_empty).
Proof.
  assert (Hs : startswith "/" "/etc/app.yaml" = true) by reflexivity.
  split; [exact Hs|]. split.
  - destruct (@absolute_conf_ignores_path parsers "./conf"
                (Some "/etc/app.yaml") (Some "PROD") (FromDict ∅) None
                absolute "/etc/app.yaml" eq_refl Hs) as (_ & Hread & _).
    split; [reflexivity|]. rewrite (Hread eq_refl). vm_compute. reflexivity.
  - destruct (@absolute_conf_ignores_path parsers "/etc/conf.d"
                (Some "/etc/app.yaml") (Some "PROD") (FromDict ∅) None
                absolute "/etc/app.yaml" eq_refl Hs) as (_ & _ & Hskip).
    split; [reflexivity|]. exact (Hskip eq_refl).
Defined.



End Witnesses.
